(** * The organisation registration page

    A shallow embedding of [src/app/(auth-routes)/register/organisation/page.tsx]:
    the zod schema [formSchema], react-hook-form's [handleSubmit], and the
    page's submit handler [onSubmit] with its three response branches.

    The component's local state (the [isLoading] flag, the resolved
    [apiUrl], the form's error object) is an explicit record; what the
    component does to its collaborators (the HTTP client, the notifier, the
    router) is appended to a log of effects.  The handler is written in a
    state-and-exception monad, so that an exception raised inside the
    [catch] block is visible as an abrupt completion. *)

From Stdlib Require Import Ascii.
From stdpp Require Import base strings gmap list.

Local Open Scope Z_scope.
Local Open Scope string_scope.

(** ** JavaScript strings *)

(** A string is its sequence of code units; [String.length] is [.length]
    and [+:+] is concatenation. *)

(** [`${v}`] for a value that is a string or [undefined]. *)
Definition template (v : option string) : string :=
  match v with
  | Some s => s
  | None => "undefined"
  end.

(** [v || d] for a value [v] that is a string or [undefined]: the empty
    string is falsy. *)
Definition or_else (v : option string) (d : string) : string :=
  match v with
  | Some EmptyString => d
  | Some s => s
  | None => d
  end.

(** ** The e-mail pattern of zod 3

    [z.string().email()] tests the input against a regular expression,
    case-insensitively: before the at sign any number of characters of
    [A-Z0-9_'+-.] and then one of [A-Z0-9_+-], with no dot in first place
    and no two dots in a row; after it one or more labels, each a
    character of [A-Z0-9] followed by characters of [A-Z0-9-] and a dot,
    and then two or more letters.
    The page does not depend on the exact pattern, so the model below takes
    the test as a variable; this matcher is the instance used to run the
    model on concrete inputs. *)
Module Email.

Definition between (lo hi : N) (c : ascii) : bool :=
  let n := N_of_ascii c in ((lo <=? n) && (n <=? hi))%N.

Definition letter (c : ascii) : bool :=
  between 65 90 c || between 97 122 c.

Definition digit (c : ascii) : bool := between 48 57 c.

Definition alnum (c : ascii) : bool := letter c || digit c.

Definition same (a c : ascii) : bool := bool_decide (a = c).

(** The class [A-Z0-9_+-] of the last character before the at sign. *)
Definition local_last (c : ascii) : bool :=
  alnum c || same "_"%char c || same "+"%char c || same "-"%char c.

(** The class [A-Z0-9_'+-.] of the other characters before it. *)
Definition local_char (c : ascii) : bool :=
  local_last c || same "'"%char c || same "."%char c.

(** The class [A-Z0-9-] inside a domain label. *)
Definition label_char (c : ascii) : bool := alnum c || same "-"%char c.

(** The pieces of [s] between occurrences of [sep]. *)
Fixpoint split (sep : ascii) (s : string) : list string :=
  match s with
  | EmptyString => [EmptyString]
  | String c s' =>
      if same sep c then EmptyString :: split sep s'
      else match split sep s' with
           | p :: ps => String c p :: ps
           | [] => [String c EmptyString]
           end
  end.

Fixpoint all (p : ascii → bool) (s : string) : bool :=
  match s with
  | EmptyString => true
  | String c s' => p c && all p s'
  end.

Fixpoint last_is (p : ascii → bool) (s : string) : bool :=
  match s with
  | EmptyString => false
  | String c EmptyString => p c
  | String _ s' => last_is p s'
  end.

(** The second lookahead: two consecutive dots somewhere. *)
Fixpoint dotdot (s : string) : bool :=
  match s with
  | String c1 ((String c2 _) as s') => (same "."%char c1 && same "."%char c2) || dotdot s'
  | _ => false
  end.

(** The part before the at sign, under the two lookaheads. *)
Definition local_part (s : string) : bool :=
  match s with
  | EmptyString => false
  | String c _ => negb (same "."%char c) && all local_char s && last_is local_last s
                  && negb (dotdot s)
  end.

(** One label of the domain. *)
Definition label (s : string) : bool :=
  match s with
  | EmptyString => false
  | String c s' => alnum c && all label_char s'
  end.

(** The last label: two or more letters. *)
Definition top_level (s : string) : bool :=
  all letter s && (2 <=? String.length s)%nat.

(** At least one label, then the top-level one. *)
Fixpoint labels (first : bool) (ps : list string) : bool :=
  match ps with
  | [] => false
  | [p] => negb first && top_level p
  | p :: ps' => label p && labels false ps'
  end.

Definition domain (s : string) : bool := labels true (split "."%char s).

Definition matches (s : string) : bool :=
  match split "@"%char s with
  | [l; d] => local_part l && domain d
  | _ => false
  end.

End Email.

(** ** The form's data *)

(** [FormData], the type inferred from the schema. *)
Record FormData := mkFormData {
  name : string;
  email : string;
  industry : string;
  type : string;
  country : string;
  state : string;
  address : string
}.

(** [keyof FormData]. *)
Inductive Key :=
  Kname | Kemail | Kindustry | Ktype | Kcountry | Kstate | Kaddress.

Definition keys : list Key :=
  [Kname; Kemail; Kindustry; Ktype; Kcountry; Kstate; Kaddress].

Global Instance Key_eq_dec : EqDecision Key.
Proof. solve_decision. Defined.

(** The property name of a key, as react-hook-form and the server use it. *)
Definition key_name (k : Key) : string :=
  match k with
  | Kname => "name"
  | Kemail => "email"
  | Kindustry => "industry"
  | Ktype => "type"
  | Kcountry => "country"
  | Kstate => "state"
  | Kaddress => "address"
  end.

(** [data[k]]. *)
Definition get (d : FormData) (k : Key) : string :=
  match k with
  | Kname => name d
  | Kemail => email d
  | Kindustry => industry d
  | Ktype => type d
  | Kcountry => country d
  | Kstate => state d
  | Kaddress => address d
  end.

(** The [defaultValues] of [useForm]. *)
Definition defaultValues : FormData :=
  {| name := ""; email := ""; type := ""; industry := ""; country := "";
     state := ""; address := "" |}.

(** The [SelectItem] values offered by the four select controls. *)
Definition options (k : Key) : list string :=
  match k with
  | Kindustry => ["Technology"]
  | Ktype => ["Entertainment"]
  | Kcountry => ["Nigeria"]
  | Kstate => ["Lagos"]
  | _ => []
  end.

(** An entry of react-hook-form's error object: [{ type, message }]. *)
Record FieldError := mkFieldError {
  error_type : string;
  error_message : string
}.

Global Instance FieldError_eq_dec : EqDecision FieldError.
Proof. solve_decision. Defined.

(** ** The schema *)

(** One string check of zod: the test, the code of the issue it raises and
    the message given to it. *)
Record StringCheck := mkStringCheck {
  passes : string → bool;
  code : string;
  message : string
}.

(** [z.string().min(n, { message })]. *)
Definition string_min (n : nat) (msg : string) : StringCheck :=
  {| passes := λ s, (n <=? String.length s)%nat;
     code := "too_small";
     message := msg |}.

Section Schema.

(** The test behind [z.string().email()]. *)
Variable isEmail : string → bool.

(** [z.string().email({ message })]. *)
Definition email_check (msg : string) : StringCheck :=
  {| passes := isEmail; code := "invalid_string"; message := msg |}.

Definition formSchema (k : Key) : StringCheck :=
  match k with
  | Kname => string_min 2 "Company name must be at least 2 characters."
  | Kemail => email_check "Company email must be a valid email address."
  | Kindustry => string_min 1 "Please select an industry."
  | Ktype => string_min 1 "Please select an organization type."
  | Kcountry => string_min 1 "Please select a country."
  | Kstate => string_min 1 "Please select a state."
  | Kaddress => string_min 1 "Please enter company address."
  end.

(** Whether the value of key [k] passes its check. *)
Definition valid_at (d : FormData) (k : Key) : bool :=
  passes (formSchema k) (get d k).

(** Whether [formSchema] accepts the values as a whole. *)
Definition passes_schema (d : FormData) : bool := forallb (valid_at d) keys.

(** The error the resolver reports for a failing key. *)
Definition issue (k : Key) : FieldError :=
  {| error_type := code (formSchema k);
     error_message := message (formSchema k) |}.

(** The issues of the keys [l], collected into an error object. *)
Definition issues (d : FormData) (l : list Key) : gmap string FieldError :=
  foldr (λ k errs, if valid_at d k then errs else <[key_name k := issue k]> errs)
        ∅ l.

(** [zodResolver(formSchema)]: the error object for the values [d], with
    one entry per failing key and none for the others. *)
Definition zodResolver (d : FormData) : gmap string FieldError := issues d keys.

End Schema.

(** ** The session *)

(** [useSession().data]: absent until authentication has resolved. *)
Record User := mkUser { id : string }.

Record Session := mkSession {
  user : option User;
  access_token : option string
}.

(** ** Requests, responses and errors *)

(** The second argument of [axios.post]. *)
Record Payload := mkPayload {
  data : FormData;
  user_id : option string;
  description : string
}.

Record Request := mkRequest {
  url : string;
  body : Payload;
  Authorization : string
}.

(** A server-side validation error, at the type the handler's callback
    gives it: [{ field: string; message: string }]. *)
Record ValidationError := mkValidationError {
  field : string;
  field_message : string
}.

(** [error.response.data.errors], a value of type [any], as far as the
    handler tells values apart.  An array is taken at the type the callback
    gives its elements, objects with a string [field] and a string
    [message]; arrays with other elements ([null], on which reading [field]
    raises) are not among these values. *)
Inductive ErrorsValue :=
  | errors_falsy                          (* no such key, null, false, 0 or the empty string *)
  | errors_array (l : list ValidationError)
  | errors_other.                         (* any other value: an object, a non-empty string, ... *)

(** [error.response.data], a value of type [any]: either [null], of which
    no property can be read, or a value with its [errors] and [message]
    properties ([message] absent or a string). *)
Inductive Data :=
  | data_null
  | data_value (errors : ErrorsValue) (message : option string).

Record Response := mkResponse {
  status : Z;
  response_data : Data
}.

(** What can be thrown: an axios error, with the response when one was
    received, a [TypeError] raised by the handler's own code, or something
    else. *)
Inductive Error :=
  | AxiosError (response : option Response)
  | TypeError
  | OtherError.

(** How the promise of [axios.post] settles. *)
Inductive Settled :=
  | Fulfilled (r : Response)
  | Rejected (e : Error).

(** What happens to the request on the network. *)
Inductive Network :=
  | Replied (r : Response)
  | Failed.

(** axios' default [validateStatus]. *)
Definition validateStatus (s : Z) : bool := (200 <=? s)%Z && (s <? 300)%Z.

(** axios fulfils the promise on a status that passes [validateStatus] and
    rejects it with an [AxiosError] otherwise. *)
Definition settle (n : Network) : Settled :=
  match n with
  | Replied r =>
      if validateStatus (status r) then Fulfilled r
      else Rejected (AxiosError (Some r))
  | Failed => Rejected (AxiosError None)
  end.

(** ** The component's state and its effects *)

Record Toast := mkToast {
  title : string;
  toast_description : string;
  variant : option string
}.

(** What the component asks of its collaborators. *)
Inductive Effect :=
  | Post (r : Request)          (* axios.post *)
  | Notify (t : Toast)          (* toast *)
  | Push (path : string).       (* router.push *)

Record State := mkState {
  isLoading : bool;                       (* useState(false) *)
  apiUrl : string;                        (* useState("") *)
  errors : gmap string FieldError;        (* form.formState.errors *)
  effects : list Effect                   (* oldest first *)
}.

Definition initial : State :=
  {| isLoading := false; apiUrl := ""; errors := ∅; effects := [] |}.

(** ** Computations: state and exceptions *)

Inductive Completion (A : Type) :=
  | Normal (a : A) (st : State)
  | Throw (e : Error) (st : State).

Arguments Normal {A} a st.
Arguments Throw {A} e st.

Definition M (A : Type) : Type := State → Completion A.

Global Instance M_ret : MRet M := λ A a st, Normal a st.

Global Instance M_bind : MBind M := λ A B f m st,
  match m st with
  | Normal a st' => f a st'
  | Throw e st' => Throw e st'
  end.

Definition throw {A} (e : Error) : M A := λ st, Throw e st.

(** [try { block } catch (error) { handler error }]. *)
Definition try_catch {A} (block : M A) (handler : Error → M A) : M A := λ st,
  match block st with
  | Normal a st' => Normal a st'
  | Throw e st' => handler e st'
  end.

(** The state a computation leaves behind, however it completes. *)
Definition final {A} (c : Completion A) : State :=
  match c with
  | Normal _ st => st
  | Throw _ st => st
  end.

Definition returns {A} (c : Completion A) : bool :=
  match c with
  | Normal _ _ => true
  | Throw _ _ => false
  end.

(** *** State updates *)

Definition set_isLoading (b : bool) (st : State) : State :=
  {| isLoading := b; apiUrl := apiUrl st; errors := errors st;
     effects := effects st |}.

Definition set_apiUrl (u : string) (st : State) : State :=
  {| isLoading := isLoading st; apiUrl := u; errors := errors st;
     effects := effects st |}.

Definition set_errors (errs : gmap string FieldError) (st : State) : State :=
  {| isLoading := isLoading st; apiUrl := apiUrl st; errors := errs;
     effects := effects st |}.

Definition log (e : Effect) (st : State) : State :=
  {| isLoading := isLoading st; apiUrl := apiUrl st; errors := errors st;
     effects := effects st ++ [e] |}.

Definition modify (f : State → State) : M unit := λ st, Normal tt (f st).

Definition gets {A} (f : State → A) : M A := λ st, Normal (f st) st.

(** *** The hooks and collaborators *)

Definition setIsLoading (b : bool) : M unit := modify (set_isLoading b).

Definition setApiUrl (u : string) : M unit := modify (set_apiUrl u).

Definition toast (t : Toast) : M unit := modify (log (Notify t)).

Definition router_push (path : string) : M unit := modify (log (Push path)).

(** [axios.post(url, payload, config)]: the request goes out. *)
Definition axios_post (r : Request) : M unit := modify (log (Post r)).

(** [await promise]. *)
Definition await (p : Settled) : M Response :=
  match p with
  | Fulfilled r => mret r
  | Rejected e => throw e
  end.

(** [form.clearErrors()]: without a name, the whole error object is emptied. *)
Definition clearErrors : M unit := modify (set_errors ∅).

(** react-hook-form's [isKey], the test of a name against the pattern of
    word characters only: letters, digits and underscores. *)
Definition isKey (name : string) : bool :=
  Email.all (λ c, Email.alnum c || Email.same "_"%char c) name.

(** The names that react-hook-form's [set] writes as one own property of the
    error object: a key in the sense of [isKey], other than the three names
    that reach the prototype and that [set] may refuse. *)
Definition plain_key (name : string) : bool :=
  isKey name
  && negb (bool_decide (name ∈ ["__proto__"; "constructor"; "prototype"])).

(** [form.setError(name, error)] for a [plain_key] name: the entry under
    [name] is written, whether or not a field of that name is registered.
    react-hook-form reads any other name (one with a dot, a bracket or a
    quote) as a path into the error object and writes along it; this
    definition does not follow paths, and whatever is stated below about the
    entries a write leaves is stated for plain keys.  The form's seven names
    are plain keys. *)
Definition setError (name : string) (e : FieldError) : M unit :=
  modify (λ st, set_errors (<[name := e]> (errors st)) st).

(** [array.forEach(callback)]. *)
Fixpoint forEach {A} (l : list A) (callback : A → M unit) : M unit :=
  match l with
  | [] => mret tt
  | x :: l' => callback x ;; forEach l' callback
  end.

(** *** Values of type [any] *)

(** Reading [data.errors] and [data.message]: a [TypeError] on [null]. *)
Definition read_errors (d : Data) : M ErrorsValue :=
  match d with
  | data_null => throw TypeError
  | data_value errs _ => mret errs
  end.

Definition read_message (d : Data) : M (option string) :=
  match d with
  | data_null => throw TypeError
  | data_value _ msg => mret msg
  end.

(** [v || []]. *)
Definition or_empty (v : ErrorsValue) : ErrorsValue :=
  match v with
  | errors_falsy => errors_array []
  | _ => v
  end.

(** [v.forEach(callback)] on a value of type [any]: only an array has the
    method, calling it on anything else is a [TypeError]. *)
Definition forEach_any (v : ErrorsValue) (callback : ValidationError → M unit) : M unit :=
  match v with
  | errors_array l => forEach l callback
  | _ => throw TypeError
  end.

(** ** The page *)

(** [`${apiUrl}/api/v1/organizations`]. *)
Definition endpoint (base : string) : string := base +:+ "/api/v1/organizations".

(** [`Bearer ${session?.access_token}`]. *)
Definition bearer (session : option Session) : string :=
  "Bearer " +:+ template (session ≫= access_token).

(** [{ ...data, user_id: session?.user?.id, description: "n/a" }]. *)
Definition payload (session : option Session) (d : FormData) : Payload :=
  {| data := d; user_id := id <$> (session ≫= user); description := "n/a" |}.

(** The error written for a server-side validation error:
    [{ type: "manual", message: err.message }]. *)
Definition manual (err : ValidationError) : FieldError :=
  {| error_type := "manual"; error_message := field_message err |}.

(** The callback given to [validationErrors.forEach]. *)
Definition report (err : ValidationError) : M unit :=
  setError (field err) (manual err).

(** The three notifications of [onSubmit]. *)
Definition created : Toast :=
  {| title := "Organization created successfully";
     toast_description := "Continue to dashboard";
     variant := None |}.

Definition failed (msg : option string) : Toast :=
  {| title := "Error occurred";
     toast_description := or_else msg "Failed to submit the form. Please try again.";
     variant := None |}.

Definition unexpected : Toast :=
  {| title := "Error occured";
     toast_description := "An unexpected error occurred.";
     variant := None |}.

(** The [catch] block of [onSubmit]. *)
Definition onSubmit_catch (error : Error) : M unit :=
  match error with
  | AxiosError (Some response) =>
      if bool_decide (status response = 422) then
        errs ← read_errors (response_data response);
        let validationErrors := or_empty errs in
        clearErrors ;;
        forEach_any validationErrors report
      else
        msg ← read_message (response_data response);
        toast (failed msg)
  | _ => toast unexpected
  end.

(** [onSubmit] up to its [await]: the flag is raised and the request sent. *)
Definition onSubmit_request (session : option Session) (d : FormData) : M unit :=
  setIsLoading true ;;
  base ← gets apiUrl;
  axios_post {| url := endpoint base;
                body := payload session d;
                Authorization := bearer session |}.

(** The rest of [onSubmit], run once the promise has settled as [p]. *)
Definition onSubmit_response (p : Settled) : M unit :=
  try_catch
    (await p ;; toast created ;; router_push "/dashboard")
    onSubmit_catch ;;
  setIsLoading false.

(** [onSubmit], for a request that fares as [n] on the network. *)
Definition onSubmit (session : option Session) (n : Network) (d : FormData) : M unit :=
  onSubmit_request session d ;;
  onSubmit_response (settle n).

(** [fetchApiUrl], the effect run on mount, for a resolver that yields
    [resolved] ([None] when it fails). *)
Definition fetchApiUrl (resolved : option string) : M unit :=
  match resolved with
  | Some u => setApiUrl u
  | None =>
      toast {| title := "Error";
               toast_description := "Failed to fetch API URL";
               variant := Some "destructive" |}
  end.

(** What the submit button shows: [isDisabled={isLoading}] and its label. *)
Definition isDisabled (st : State) : bool := isLoading st.

Definition label (st : State) : string :=
  if isLoading st then "Processing..." else "Create Account".

(** What [FormMessage] shows under the field of key [k]. *)
Definition FormMessage (st : State) (k : Key) : option string :=
  error_message <$> errors st !! key_name k.

Section Form.

Variable isEmail : string → bool.

(** [form.handleSubmit(onValid)], run on the form's current [values]: the
    resolver's errors replace the error object, and [onValid] is called
    only when there are none. *)
Definition handleSubmit (onValid : FormData → M unit) (values : FormData) : M unit :=
  let errs := zodResolver isEmail values in
  modify (set_errors errs) ;;
  if bool_decide (errs = ∅) then onValid values else mret tt.

(** The form's [onSubmit={form.handleSubmit(onSubmit)}]. *)
Definition submit (session : option Session) (n : Network) (values : FormData) : M unit :=
  handleSubmit (onSubmit session n) values.

End Form.

(** ** Reading the log *)

Definition posts (l : list Effect) : list Request :=
  omap (λ e, match e with Post r => Some r | _ => None end) l.

Definition toasts (l : list Effect) : list Toast :=
  omap (λ e, match e with Notify t => Some t | _ => None end) l.

Definition pushes (l : list Effect) : list string :=
  omap (λ e, match e with Push p => Some p | _ => None end) l.

(** ** Reading a response *)

(** The error object after the pairs [l] have been written over [errs]. *)
Definition written (errs : gmap string FieldError) (l : list ValidationError) : gmap string FieldError :=
  foldl (λ errs e, <[field e := manual e]> errs) errs l.


(** The handler returns unless it finds a [null] body, or a 422 body whose
    [errors] is neither falsy nor an array. *)
Definition breaks (p : Settled) : bool :=
  match p with
  | Rejected (AxiosError (Some r)) =>
      match response_data r with
      | data_null => true
      | data_value errors_other _ => bool_decide (status r = 422)
      | data_value _ _ => false
      end
  | _ => false
  end.

(** ** Sample inputs *)

Definition acme : FormData :=
  {| name := "Acme Inc"; email := "a@acme.com"; industry := "Technology";
     type := "Entertainment"; country := "Nigeria"; state := "Lagos";
     address := "1 Main St" |}.

Definition alice : Session :=
  {| user := Some {| id := "u1" |}; access_token := Some "tok" |}.

(** [acme] with an industry that the select does not offer. *)
Definition agriculture : FormData :=
  {| name := "Acme Inc"; email := "a@acme.com"; industry := "Agriculture";
     type := "Entertainment"; country := "Nigeria"; state := "Lagos";
     address := "1 Main St" |}.

(** A validation error for a field the form does not have. *)
Definition phone_error : ValidationError :=
  {| field := "phone"; field_message := "Phone number is invalid" |}.

Definition email_taken : ValidationError :=
  {| field := "email"; field_message := "taken" |}.

(** The state in which a request of [acme] under [alice] is in flight. *)
Definition in_flight : State :=
  {| isLoading := true; apiUrl := "https://api.example.com"; errors := ∅;
     effects := [Post {| url := "https://api.example.com/api/v1/organizations";
                         body := payload (Some alice) acme;
                         Authorization := "Bearer tok" |}] |}.

(** ** Editing the form *)

(** [field.onChange(v)] for the field of key [k]: the value of that field
    becomes [v]. *)
Definition onChange (k : Key) (v : string) (d : FormData) : FormData :=
  match k with
  | Kname =>
      {| name := v; email := email d; industry := industry d; type := type d;
         country := country d; state := state d; address := address d |}
  | Kemail =>
      {| name := name d; email := v; industry := industry d; type := type d;
         country := country d; state := state d; address := address d |}
  | Kindustry =>
      {| name := name d; email := email d; industry := v; type := type d;
         country := country d; state := state d; address := address d |}
  | Ktype =>
      {| name := name d; email := email d; industry := industry d; type := v;
         country := country d; state := state d; address := address d |}
  | Kcountry =>
      {| name := name d; email := email d; industry := industry d; type := type d;
         country := v; state := state d; address := address d |}
  | Kstate =>
      {| name := name d; email := email d; industry := industry d; type := type d;
         country := country d; state := v; address := address d |}
  | Kaddress =>
      {| name := name d; email := email d; industry := industry d; type := type d;
         country := country d; state := state d; address := v |}
  end.

(** The fields rendered as a [Select]; the other three are [Input]s. *)
Definition is_select (k : Key) : bool :=
  match k with
  | Kindustry | Ktype | Kcountry | Kstate => true
  | _ => false
  end.

(** What the control of key [k] can pass to [field.onChange]: an [Input]
    passes [e.target.value], any string; a [Select] passes to
    [onValueChange] the value of one of its items. *)
Definition offers (k : Key) (v : string) : Prop :=
  if is_select k then v ∈ options k else True.

(** The values of a form after the edits [es], oldest first, starting from
    [defaultValues]. *)
Definition fill (es : list (Key * string)) : FormData :=
  foldl (λ d e, onChange e.1 e.2 d) defaultValues es.

(** * Properties *)

(** ** Keys and the schema *)

Lemma elem_of_keys (k : Key) : k ∈ keys.
Proof. destruct k; unfold keys; set_solver. Qed.

Global Instance key_name_inj : Inj (=) (=) key_name.
Proof. intros k1 k2 H. destruct k1, k2; simpl in H; congruence. Qed.

(** The form's own names are plain keys. *)
Lemma key_name_plain (k : Key) : plain_key (key_name k) = true.
Proof. by destruct k. Qed.

Lemma length_zero_empty (s : string) : String.length s = 0%nat ↔ s = "".
Proof. destruct s; simpl; split; intros; congruence. Qed.

Lemma string_min_1 (msg s : string) : passes (string_min 1 msg) s = bool_decide (s ≠ "").
Proof. destruct s; reflexivity. Qed.

Section SchemaFacts.

Variable isEmail : string → bool.

(** The resolver's errors over any list of keys, entry by entry. *)
Lemma issues_lookup (d : FormData) (l : list Key) (k : Key) :
  issues isEmail d l !! key_name k
  = if bool_decide (k ∈ l) && negb (valid_at isEmail d k)
    then Some (issue isEmail k) else None.
Proof.
  unfold issues. induction l as [|k' l IH]; simpl.
  - by rewrite lookup_empty.
  - destruct (decide (k' = k)) as [->|Hne].
    + rewrite (bool_decide_eq_true_2 (k ∈ k :: l)) by set_solver. simpl.
      destruct (valid_at isEmail d k) eqn:Hv; simpl.
      * rewrite IH. by rewrite andb_false_r.
      * by rewrite lookup_insert_eq.
    + assert (bool_decide (k ∈ k' :: l) = bool_decide (k ∈ l)) as ->.
      { apply bool_decide_ext. rewrite elem_of_cons.
        split; [intros [?|?]; [congruence|done] | by right]. }
      destruct (valid_at isEmail d k'); [done|].
      rewrite lookup_insert_ne; [done|]. intros ?. by apply Hne, (inj key_name).
Qed.

Lemma zodResolver_lookup (d : FormData) (k : Key) :
  zodResolver isEmail d !! key_name k
  = if valid_at isEmail d k then None else Some (issue isEmail k).
Proof.
  unfold zodResolver. rewrite issues_lookup.
  rewrite bool_decide_eq_true_2 by apply elem_of_keys.
  by destruct (valid_at isEmail d k).
Qed.

Lemma issues_empty (d : FormData) (l : list Key) :
  issues isEmail d l = ∅ ↔ forallb (valid_at isEmail d) l = true.
Proof.
  unfold issues. induction l as [|k l IH]; simpl; [done|].
  destruct (valid_at isEmail d k); simpl; [done|].
  split; [|done]. intros H. by apply insert_non_empty in H.
Qed.

Lemma zodResolver_empty (d : FormData) :
  zodResolver isEmail d = ∅ ↔ passes_schema isEmail d = true.
Proof. apply issues_empty. Qed.

(** Validity in the terms of the schema's seven checks. *)
Lemma passes_schema_spec (d : FormData) :
  passes_schema isEmail d = true ↔
    (2 ≤ String.length (name d))%nat ∧ isEmail (email d) = true ∧
    industry d ≠ "" ∧ type d ≠ "" ∧ country d ≠ "" ∧ state d ≠ "" ∧
    address d ≠ "".
Proof.
  unfold passes_schema, keys, valid_at.
  cbn [forallb formSchema get].
  rewrite !andb_true_iff, !string_min_1, !bool_decide_eq_true.
  cbn [passes string_min email_check]. rewrite Nat.leb_le. tauto.
Qed.

End SchemaFacts.

(** ** Running computations *)

Lemma bind_normal {A B} (m : M A) (f : A → M B) (st st' : State) (a : A) :
  m st = Normal a st' → (m ≫= f) st = f a st'.
Proof. intros H. unfold mbind, M_bind. by rewrite H. Qed.

Lemma bind_throw {A B} (m : M A) (f : A → M B) (st st' : State) (e : Error) :
  m st = Throw e st' → (m ≫= f) st = Throw e st'.
Proof. intros H. unfold mbind, M_bind. by rewrite H. Qed.

(** Unfolds the monad and the hooks, leaving a goal about states. *)
Ltac run :=
  cbv beta iota zeta delta
    [mbind M_bind mret M_ret try_catch throw await setIsLoading setApiUrl
     toast router_push axios_post clearErrors setError modify gets
     read_errors read_message or_empty forEach_any onSubmit_catch
     status response_data].

(** ** Client-side validation *)

Lemma valid_at_name (isEmail : string → bool) (d : FormData) :
  valid_at isEmail d Kname = (2 <=? String.length (name d))%nat.
Proof. reflexivity. Qed.

Lemma valid_at_email (isEmail : string → bool) (d : FormData) :
  valid_at isEmail d Kemail = isEmail (email d).
Proof. reflexivity. Qed.

(** The four selects and the address are only checked for being non-empty. *)
Lemma valid_at_nonempty (isEmail : string → bool) (d : FormData) (k : Key) :
  k ≠ Kname → k ≠ Kemail →
  valid_at isEmail d k = bool_decide (get d k ≠ "").
Proof. intros ??. destruct k; try done; apply string_min_1. Qed.

Lemma FormMessage_resolver (isEmail : string → bool) (d : FormData) (st : State) (k : Key) :
  FormMessage (set_errors (zodResolver isEmail d) st) k
  = if valid_at isEmail d k then None else Some (message (formSchema isEmail k)).
Proof.
  unfold FormMessage. cbn [errors set_errors]. rewrite zodResolver_lookup.
  by destruct (valid_at isEmail d k).
Qed.

(** With errors from the resolver, [handleSubmit] stores them and returns
    without calling its argument. *)
Lemma handleSubmit_invalid (isEmail : string → bool) (onValid : FormData → M unit) (values : FormData) (st : State) :
  passes_schema isEmail values = false →
  handleSubmit isEmail onValid values st
  = Normal tt (set_errors (zodResolver isEmail values) st).
Proof.
  intros H. unfold handleSubmit. run.
  rewrite bool_decide_eq_false_2; [done|].
  rewrite zodResolver_empty. congruence.
Qed.

(** Without errors, [handleSubmit] empties the error object and calls its
    argument on the values. *)
Lemma handleSubmit_valid (isEmail : string → bool) (onValid : FormData → M unit) (values : FormData) (st : State) :
  passes_schema isEmail values = true →
  handleSubmit isEmail onValid values st = onValid values (set_errors ∅ st).
Proof.
  intros H. apply zodResolver_empty in H. unfold handleSubmit. run.
  rewrite bool_decide_eq_true_2 by done. by rewrite H.
Qed.

(** C1: when a required field is empty or malformed (the name shorter than
    two characters, the e-mail rejected by the e-mail test, or the industry,
    type, country, state or address empty), submission is blocked:
    [handleSubmit] returns without calling the handler it was given, whatever
    that handler is; for the page's own handler no request is posted and the
    log of effects and the [isLoading] flag are untouched; and every failing
    field shows the message the schema gives it. *)
Theorem invalid_input_blocks_submission
  (isEmail : string → bool) (onValid : FormData → M unit)
  (session : option Session) (n : Network) (values : FormData) (st : State) :
  (String.length (name values) < 2)%nat ∨ isEmail (email values) = false ∨
  industry values = "" ∨ type values = "" ∨ country values = "" ∨
  state values = "" ∨ address values = "" →
  let st' := set_errors (zodResolver isEmail values) st in
  handleSubmit isEmail onValid values st = Normal tt st'
  ∧ submit isEmail session n values st = Normal tt st'
  ∧ posts (effects st') = posts (effects st)
  ∧ effects st' = effects st
  ∧ isLoading st' = isLoading st
  ∧ ((String.length (name values) < 2)%nat →
       FormMessage st' Kname = Some "Company name must be at least 2 characters.")
  ∧ (isEmail (email values) = false →
       FormMessage st' Kemail = Some "Company email must be a valid email address.")
  ∧ (industry values = "" →
       FormMessage st' Kindustry = Some "Please select an industry.")
  ∧ (type values = "" →
       FormMessage st' Ktype = Some "Please select an organization type.")
  ∧ (country values = "" →
       FormMessage st' Kcountry = Some "Please select a country.")
  ∧ (state values = "" →
       FormMessage st' Kstate = Some "Please select a state.")
  ∧ (address values = "" →
       FormMessage st' Kaddress = Some "Please enter company address.").
Proof.
  intros Hbad st'.
  assert (passes_schema isEmail values = false) as Hinvalid.
  { apply not_true_is_false. rewrite passes_schema_spec.
    intros (? & ? & ? & ? & ? & ? & ?).
    destruct Hbad as [?|[?|[?|[?|[?|[?|?]]]]]]; try congruence. lia. }
  split; [by apply handleSubmit_invalid|].
  split; [by apply handleSubmit_invalid|].
  do 3 (split; [done|]).
  unfold st'. rewrite !FormMessage_resolver.
  rewrite valid_at_name, valid_at_email, !valid_at_nonempty by done.
  cbn [get].
  repeat split; intros H; try (by rewrite H).
  by apply Nat.leb_gt in H as ->.
Qed.

Lemma invalid_input_blocks_submission_witness :
  (String.length (name defaultValues) < 2)%nat
  ∧ submit Email.matches None Failed defaultValues initial
    = Normal tt (set_errors (zodResolver Email.matches defaultValues) initial).
Proof.
  assert ((String.length (name defaultValues) < 2)%nat) as H by (simpl; lia).
  split; [exact H|].
  exact (proj1 (proj2 (invalid_input_blocks_submission Email.matches
    (onSubmit None Failed) None Failed defaultValues initial (or_introl H)))).
Defined.

(** ** The handler, branch by branch *)

Lemma forEach_report (l : list ValidationError) (st : State) :
  forEach l report st = Normal tt (set_errors (written (errors st) l) st).
Proof.
  revert st. induction l as [|e l IH]; intros st.
  - by destruct st.
  - cbn [forEach]. erewrite bind_normal by reflexivity. rewrite IH.
    by destruct st.
Qed.

(** Up to its [await] the handler raises the flag and posts the request. *)
Lemma onSubmit_request_run (session : option Session) (d : FormData) (st : State) :
  onSubmit_request session d st
  = Normal tt
      (log (Post {| url := endpoint (apiUrl st); body := payload session d;
                    Authorization := bearer session |})
           (set_isLoading true st)).
Proof. reflexivity. Qed.

Lemma onSubmit_response_fulfilled (r : Response) (st : State) :
  onSubmit_response (Fulfilled r) st
  = Normal tt (set_isLoading false (log (Push "/dashboard") (log (Notify created) st))).
Proof. reflexivity. Qed.

Lemma onSubmit_response_422_array (l : list ValidationError) (msg : option string) (st : State) :
  onSubmit_response
    (Rejected (AxiosError (Some {| status := 422;
                                   response_data := data_value (errors_array l) msg |}))) st
  = Normal tt (set_isLoading false (set_errors (written ∅ l) st)).
Proof.
  unfold onSubmit_response. run.
  rewrite bool_decide_eq_true_2 by done. cbv beta iota zeta.
  by rewrite forEach_report.
Qed.

Lemma onSubmit_response_422_falsy (msg : option string) (st : State) :
  onSubmit_response
    (Rejected (AxiosError (Some {| status := 422;
                                   response_data := data_value errors_falsy msg |}))) st
  = Normal tt (set_isLoading false (set_errors ∅ st)).
Proof. reflexivity. Qed.

(** A truthy [errors] that is not an array: the error object has been
    emptied when [forEach] fails, and the handler ends there. *)
Lemma onSubmit_response_422_other (msg : option string) (st : State) :
  onSubmit_response
    (Rejected (AxiosError (Some {| status := 422;
                                   response_data := data_value errors_other msg |}))) st
  = Throw TypeError (set_errors ∅ st).
Proof. reflexivity. Qed.

(** A [null] body: the first property access fails, whatever the status. *)
Lemma onSubmit_response_null (s : Z) (st : State) :
  onSubmit_response
    (Rejected (AxiosError (Some {| status := s; response_data := data_null |}))) st
  = Throw TypeError st.
Proof.
  unfold onSubmit_response. run. by case_bool_decide.
Qed.

Lemma onSubmit_response_other_status (s : Z) (ev : ErrorsValue) (msg : option string) (st : State) :
  s ≠ 422 →
  onSubmit_response
    (Rejected (AxiosError (Some {| status := s; response_data := data_value ev msg |}))) st
  = Normal tt
      (set_isLoading false
         (log (Notify {| title := "Error occurred";
                         toast_description :=
                           or_else msg "Failed to submit the form. Please try again.";
                         variant := None |}) st)).
Proof.
  intros Hs. unfold onSubmit_response. run.
  by rewrite bool_decide_eq_false_2 by done.
Qed.

(** No response, or an error that is not an axios error. *)
Lemma onSubmit_response_no_response (e : Error) (st : State) :
  e = AxiosError None ∨ e = TypeError ∨ e = OtherError →
  onSubmit_response (Rejected e) st
  = Normal tt (set_isLoading false (log (Notify unexpected) st)).
Proof. by intros [->|[->| ->]]. Qed.

(** *** What every run has in common *)

Lemma posts_log (e : Effect) (st : State) :
  posts (effects (log e st))
  = (posts (effects st) ++ match e with Post r => [r] | _ => [] end)%list.
Proof.
  unfold posts. cbn [effects log]. rewrite omap_app. by destruct e.
Qed.

(** The handler sends nothing more once the promise has settled. *)
Lemma onSubmit_response_posts (p : Settled) (st : State) :
  posts (effects (final (onSubmit_response p st))) = posts (effects st).
Proof.
  destruct p as [r|[[[s [|ev msg]]|]| |]].
  - rewrite onSubmit_response_fulfilled. cbn [final effects set_isLoading].
    by rewrite !posts_log, !app_nil_r.
  - by rewrite onSubmit_response_null.
  - destruct (decide (s = 422)) as [->|Hs].
    + destruct ev; [by rewrite onSubmit_response_422_falsy
                   |by rewrite onSubmit_response_422_array
                   |by rewrite onSubmit_response_422_other].
    + rewrite onSubmit_response_other_status by done.
      cbn [final effects set_isLoading]. by rewrite posts_log, app_nil_r.
  - rewrite onSubmit_response_no_response by auto.
    cbn [final effects set_isLoading]. by rewrite posts_log, app_nil_r.
  - rewrite onSubmit_response_no_response by auto.
    cbn [final effects set_isLoading]. by rewrite posts_log, app_nil_r.
  - rewrite onSubmit_response_no_response by auto.
    cbn [final effects set_isLoading]. by rewrite posts_log, app_nil_r.
Qed.

(** A valid submission is the handler's run from the emptied error object. *)
Lemma submit_valid (isEmail : string → bool) (session : option Session) (n : Network) (values : FormData) (st : State) :
  passes_schema isEmail values = true →
  submit isEmail session n values st
  = onSubmit_response (settle n)
      (log (Post {| url := endpoint (apiUrl st); body := payload session values;
                    Authorization := bearer session |})
           (set_isLoading true (set_errors ∅ st))).
Proof.
  intros H. unfold submit. rewrite handleSubmit_valid by done.
  unfold onSubmit. erewrite bind_normal by apply onSubmit_request_run. done.
Qed.

(** The requests a valid submission adds to the log: the one of
    [onSubmit_request], whatever the network does. *)
Lemma submit_valid_posts (isEmail : string → bool) (session : option Session) (n : Network) (values : FormData) (st : State) :
  passes_schema isEmail values = true →
  posts (effects (final (submit isEmail session n values st)))
  = (posts (effects st)
     ++ [ {| url := endpoint (apiUrl st); body := payload session values;
             Authorization := bearer session |} ])%list.
Proof.
  intros H. rewrite submit_valid by done.
  rewrite onSubmit_response_posts. by rewrite posts_log.
Qed.



Lemma onSubmit_response_returns (p : Settled) (st : State) :
  returns (onSubmit_response p st) = negb (breaks p).
Proof.
  destruct p as [r|[[[s [|ev msg]]|]| |]]; try reflexivity.
  - by rewrite onSubmit_response_null.
  - cbn [breaks response_data status].
    destruct (decide (s = 422)) as [->|Hs].
    + destruct ev; [done| |done]. by rewrite onSubmit_response_422_array.
    + rewrite onSubmit_response_other_status by done.
      rewrite bool_decide_eq_false_2 by done. by destruct ev.
Qed.

(** When the handler returns, the flag is down. *)
Lemma onSubmit_response_lowers_flag (p : Settled) (st st' : State) :
  onSubmit_response p st = Normal tt st' → isLoading st' = false.
Proof.
  unfold onSubmit_response. unfold mbind at 1. unfold M_bind at 1.
  destruct (try_catch _ _ st); [|done].
  unfold setIsLoading, modify. by intros [= <-].
Qed.

(** When it ends abruptly, the flag is where it was. *)
Lemma onSubmit_response_leaves_flag (p : Settled) (st st' : State) (e : Error) :
  onSubmit_response p st = Throw e st' → isLoading st' = isLoading st.
Proof.
  destruct p as [r|[[[s [|ev msg]]|]| |]]; try done.
  - rewrite onSubmit_response_null. by intros [= _ <-].
  - destruct (decide (s = 422)) as [->|Hs].
    + destruct ev; try done.
      * by rewrite onSubmit_response_422_array.
      * rewrite onSubmit_response_422_other. by intros [= _ <-].
    + by rewrite onSubmit_response_other_status by done.
Qed.

(** ** The schema and the select options *)

(** C2, as the code has it: the schema accepts a value of the industry,
    type, country or state field exactly when the value is not empty.
    Membership in the options the select offers is not part of the check. *)
Theorem select_fields_checked_for_emptiness_only (isEmail : string → bool) (d : FormData) :
  valid_at isEmail d Kindustry = bool_decide (industry d ≠ "")
  ∧ valid_at isEmail d Ktype = bool_decide (type d ≠ "")
  ∧ valid_at isEmail d Kcountry = bool_decide (country d ≠ "")
  ∧ valid_at isEmail d Kstate = bool_decide (state d ≠ "").
Proof. repeat split; by rewrite valid_at_nonempty. Qed.

(** C2 fails as stated: "Agriculture" is not among the industry options,
    yet the schema accepts it and the request carrying it goes out. *)
Lemma schema_accepts_value_outside_options :
  (industry agriculture ∉ options Kindustry)
  ∧ valid_at Email.matches agriculture Kindustry = true
  ∧ passes_schema Email.matches agriculture = true
  ∧ (body <$> posts (effects (final (submit Email.matches (Some alice) Failed agriculture initial))))
    = [ {| data := agriculture; user_id := Some "u1"; description := "n/a" |} ].
Proof.
  split; [|by vm_compute].
  cbn [industry agriculture options]. rewrite list_elem_of_singleton. discriminate.
Qed.

(** ** The request *)

(** C3: a submission that passes the schema posts exactly one request,
    whatever the network then does: to the base URL followed by
    [/api/v1/organizations], with the seven values, the session's user id
    and the description "n/a" as its body, and "Bearer " followed by the
    session's access token as its [Authorization] header. *)
Theorem valid_submission_posts_once
  (isEmail : string → bool) (u : option User) (tok : string)
  (n : Network) (values : FormData) (st : State) :
  passes_schema isEmail values = true →
  posts (effects (final
    (submit isEmail (Some {| user := u; access_token := Some tok |}) n values st)))
  = (posts (effects st)
     ++ [ {| url := apiUrl st +:+ "/api/v1/organizations";
             body := {| data := values; user_id := id <$> u; description := "n/a" |};
             Authorization := "Bearer " +:+ tok |} ])%list.
Proof. intros H. by rewrite submit_valid_posts. Qed.

Lemma valid_submission_posts_once_witness :
  passes_schema Email.matches acme = true
  ∧ posts (effects (final
      (submit Email.matches (Some alice)
         (Replied {| status := 201; response_data := data_value errors_falsy None |})
         acme initial)))
    = [ {| url := "/api/v1/organizations";
           body := {| data := acme; user_id := Some "u1"; description := "n/a" |};
           Authorization := "Bearer tok" |} ].
Proof.
  assert (passes_schema Email.matches acme = true) as H by reflexivity.
  split; [exact H|].
  exact (valid_submission_posts_once Email.matches (Some {| id := "u1" |}) "tok"
           (Replied {| status := 201; response_data := data_value errors_falsy None |})
           acme initial H).
Defined.

(** ** Success *)

(** C4: when the server answers a valid submission with a 2xx status, the
    handler returns having added to the log the one request, then the
    success notification, then one navigation to [/dashboard], and nothing
    else: the request is not sent again. *)
Theorem success_notifies_and_navigates_once
  (isEmail : string → bool) (session : option Session)
  (r : Response) (values : FormData) (st : State) :
  passes_schema isEmail values = true →
  (200 ≤ status r < 300)%Z →
  submit isEmail session (Replied r) values st
  = Normal tt
      {| isLoading := false; apiUrl := apiUrl st; errors := ∅;
         effects :=
           effects st
           ++ [ Post {| url := apiUrl st +:+ "/api/v1/organizations";
                        body := payload session values;
                        Authorization := bearer session |};
                Notify {| title := "Organization created successfully";
                          toast_description := "Continue to dashboard";
                          variant := None |};
                Push "/dashboard" ] |}.
Proof.
  intros H Hs. rewrite submit_valid by done.
  unfold settle, validateStatus.
  assert ((200 <=? status r)%Z && (status r <? 300)%Z = true) as ->.
  { apply andb_true_iff. split; [apply Z.leb_le|apply Z.ltb_lt]; lia. }
  rewrite onSubmit_response_fulfilled. unfold set_isLoading, log, set_errors.
  cbn [isLoading apiUrl errors effects]. by rewrite <- !app_assoc.
Qed.

Lemma success_notifies_and_navigates_once_witness :
  pushes (effects (final
    (submit Email.matches (Some alice)
       (Replied {| status := 201; response_data := data_value errors_falsy None |})
       acme initial)))
  = ["/dashboard"].
Proof.
  rewrite (success_notifies_and_navigates_once Email.matches (Some alice)
             {| status := 201; response_data := data_value errors_falsy None |}
             acme initial);
    [reflexivity | reflexivity | cbn [status]; lia].
Defined.

(** ** Validation errors from the server *)



(** ** Other failures *)

(** When the body of an error response is not [null] and its status is not
    422, or when there is no response, the handler notifies and returns,
    leaving the error object alone. *)
Lemma other_failure_notifies (s : Z) (ev : ErrorsValue) (msg : option string) (st : State) :
  ¬ (200 ≤ s < 300)%Z → s ≠ 422 →
  onSubmit_response
    (settle (Replied {| status := s; response_data := data_value ev msg |})) st
  = Normal tt
      {| isLoading := false; apiUrl := apiUrl st; errors := errors st;
         effects :=
           effects st
           ++ [ Notify {| title := "Error occurred";
                          toast_description :=
                            or_else msg "Failed to submit the form. Please try again.";
                          variant := None |} ] |}
  ∧ onSubmit_response (settle Failed) st
    = Normal tt
        {| isLoading := false; apiUrl := apiUrl st; errors := errors st;
           effects :=
             effects st
             ++ [ Notify {| title := "Error occured";
                            toast_description := "An unexpected error occurred.";
                            variant := None |} ] |}.
Proof.
  intros Hs H422. split; [|done].
  unfold settle, validateStatus. cbn [status].
  assert ((200 <=? s)%Z && (s <? 300)%Z = false) as ->.
  { apply not_true_is_false. rewrite andb_true_iff, Z.leb_le, Z.ltb_lt. lia. }
  by rewrite onSubmit_response_other_status.
Qed.

(** C6 at its failing input: a valid submission answered with status 500
    and the body [null].  Reading [message] off the body raises a
    [TypeError] in the [catch] block: the handler ends abruptly with no
    notification in the log, and with the flag still up. *)
Lemma null_body_raises_without_notification :
  submit Email.matches (Some alice)
    (Replied {| status := 500; response_data := data_null |}) acme initial
  = Throw TypeError
      {| isLoading := true; apiUrl := ""; errors := ∅;
         effects := [ Post {| url := "/api/v1/organizations";
                              body := payload (Some alice) acme;
                              Authorization := "Bearer tok" |} ] |}
  ∧ toasts (effects (final
      (submit Email.matches (Some alice)
         (Replied {| status := 500; response_data := data_null |}) acme initial)))
    = [].
Proof. by vm_compute. Qed.

(** ** The submitting flag *)

(** The flag is up from the start of the handler to the moment the promise
    settles, and down whenever the handler returns. *)
Lemma flag_up_then_down (session : option Session) (d : FormData) (p : Settled) (st st' : State) :
  isLoading (final (onSubmit_request session d st)) = true
  ∧ (onSubmit_response p st = Normal tt st' → isLoading st' = false).
Proof. split; [done|apply onSubmit_response_lowers_flag]. Qed.

(** C7 at its failing inputs: a valid submission answered with status 422
    and a body whose [errors] is an object rather than an array, or with
    status 500 and the body [null].  In both the [catch] block raises a
    [TypeError], the handler ends abruptly before [setIsLoading(false)],
    and the button stays disabled. *)
Lemma exception_in_catch_leaves_flag_up :
  let stuck :=
    {| isLoading := true; apiUrl := ""; errors := ∅;
       effects := [ Post {| url := "/api/v1/organizations";
                            body := payload (Some alice) acme;
                            Authorization := "Bearer tok" |} ] |} in
  submit Email.matches (Some alice)
    (Replied {| status := 422; response_data := data_value errors_other None |})
    acme initial
  = Throw TypeError stuck
  ∧ submit Email.matches (Some alice)
      (Replied {| status := 500; response_data := data_null |}) acme initial
    = Throw TypeError stuck
  ∧ isDisabled stuck = true
  ∧ label stuck = "Processing...".
Proof. by vm_compute. Qed.

(** ** Fields the form does not have *)

Lemma FormMessage_other_name (st : State) (name : string) (e : FieldError) (k : Key) :
  name ∉ key_name <$> keys →
  FormMessage (set_errors (<[name := e]> (errors st)) st) k = FormMessage st k.
Proof.
  intros Hname. unfold FormMessage. cbn [errors set_errors].
  rewrite lookup_insert_ne; [done|].
  intros ->. apply Hname, list_elem_of_fmap_2, elem_of_keys.
Qed.

(** C8, as the code has it: a pair whose field is none of the form's seven
    names is passed to [form.setError] like any other.  Nothing is notified,
    whatever the name.  When the name is a plain key the pair is written
    into the error object under that name: the entries under all other
    names are as they were, and so is the message under each of the seven
    fields. *)
Theorem unrecognized_field_is_recorded_silently (err : ValidationError) (st : State) :
  field err ∉ key_name <$> keys →
  effects (final (report err st)) = effects st
  ∧ isLoading (final (report err st)) = isLoading st
  ∧ (plain_key (field err) = true →
       report err st
       = Normal tt {| isLoading := isLoading st; apiUrl := apiUrl st;
                      errors := <[field err := {| error_type := "manual";
                                                  error_message := field_message err |}]>
                                  (errors st);
                      effects := effects st |}
       ∧ errors (final (report err st)) !! field err
         = Some {| error_type := "manual"; error_message := field_message err |}
       ∧ (∀ name, name ≠ field err →
            errors (final (report err st)) !! name = errors st !! name)
       ∧ (∀ k, FormMessage (final (report err st)) k = FormMessage st k)).
Proof.
  intros Hname. split; [done|]. split; [done|]. intros _. split; [done|].
  cbn [final report setError modify errors set_errors].
  split; [by rewrite lookup_insert_eq|].
  split; [by intros name Hne; rewrite lookup_insert_ne|].
  intros k. by apply FormMessage_other_name.
Qed.

Lemma unrecognized_field_is_recorded_silently_witness :
  (field phone_error ∉ key_name <$> keys)
  ∧ plain_key (field phone_error) = true
  ∧ errors (final (report phone_error in_flight)) !! "phone"
    = Some {| error_type := "manual"; error_message := "Phone number is invalid" |}.
Proof.
  assert (field phone_error ∉ key_name <$> keys) as H.
  { cbn. rewrite !elem_of_cons, elem_of_nil.
    intros [?|[?|[?|[?|[?|[?|[?|?]]]]]]]; done. }
  assert (plain_key (field phone_error) = true) as Hplain by reflexivity.
  split; [exact H|]. split; [exact Hplain|].
  exact (proj1 (proj2 (proj2 (proj2
    (unrecognized_field_is_recorded_silently phone_error in_flight H)) Hplain))).
Defined.

(** C8 fails as stated: "phone" is none of the seven names, yet handling
    its pair changes the form's state, alone and as part of a 422 response:
    afterwards the error object has an entry under "phone". *)
Lemma unrecognized_field_changes_form_state :
  (field phone_error ∉ key_name <$> keys)
  ∧ report phone_error in_flight ≠ Normal tt in_flight
  ∧ errors in_flight !! "phone" = None
  ∧ errors (final (report phone_error in_flight)) !! "phone"
    = Some {| error_type := "manual"; error_message := "Phone number is invalid" |}
  ∧ errors (final (onSubmit_response
      (settle (Replied {| status := 422;
                          response_data := data_value (errors_array [phone_error]) None |}))
      in_flight)) !! "phone"
    = Some {| error_type := "manual"; error_message := "Phone number is invalid" |}.
Proof.
  split.
  { cbn. rewrite !elem_of_cons, elem_of_nil.
    intros [?|[?|[?|[?|[?|[?|[?|?]]]]]]]; done. }
  split.
  { intros H. apply (f_equal (λ c, errors (final c) !! "phone")) in H.
    vm_compute in H. discriminate. }
  by vm_compute.
Qed.

(** ** The base URL and the session *)

(** Until the resolver has answered, and for good when it fails, the base
    URL is the empty string the component starts with. *)
Lemma fetchApiUrl_run (resolved : option string) (st : State) :
  returns (fetchApiUrl resolved st) = true
  ∧ apiUrl (final (fetchApiUrl resolved st)) = default (apiUrl st) resolved
  ∧ isLoading (final (fetchApiUrl resolved st)) = isLoading st
  ∧ errors (final (fetchApiUrl resolved st)) = errors st.
Proof. by destruct resolved. Qed.

(** C9: nothing holds a submission back while the base URL is still the
    empty string it starts as: a valid submission then posts its one
    request, to [/api/v1/organizations]. *)
Theorem submit_before_base_url_resolves
  (isEmail : string → bool) (session : option Session)
  (n : Network) (values : FormData) (st : State) :
  passes_schema isEmail values = true →
  apiUrl st = "" →
  apiUrl initial = ""
  ∧ (url <$> posts (effects (final (submit isEmail session n values st))))
    = ((url <$> posts (effects st)) ++ ["/api/v1/organizations"])%list.
Proof.
  intros H Hurl. split; [done|].
  rewrite submit_valid_posts by done. rewrite fmap_app, Hurl. done.
Qed.

Lemma submit_before_base_url_resolves_witness :
  passes_schema Email.matches acme = true
  ∧ apiUrl initial = ""
  ∧ (url <$> posts (effects (final (submit Email.matches (Some alice) Failed acme initial))))
    = ["/api/v1/organizations"].
Proof.
  assert (passes_schema Email.matches acme = true) as H by reflexivity.
  assert (apiUrl initial = "") as Hurl by reflexivity.
  split; [exact H|]. split; [exact Hurl|].
  exact (proj2 (submit_before_base_url_resolves Email.matches (Some alice) Failed
                  acme initial H Hurl)).
Defined.

(** C10: without a session a valid submission still goes out.  The handler
    reaches its [await] without raising anything, and the one request it
    posts has no [user_id] and the header "Bearer undefined". *)
Theorem submit_without_session
  (isEmail : string → bool) (n : Network) (values : FormData) (st : State) :
  passes_schema isEmail values = true →
  let request :=
    {| url := apiUrl st +:+ "/api/v1/organizations";
       body := {| data := values; user_id := None; description := "n/a" |};
       Authorization := "Bearer undefined" |} in
  handleSubmit isEmail (onSubmit_request None) values st
  = Normal tt {| isLoading := true; apiUrl := apiUrl st; errors := ∅;
                 effects := effects st ++ [Post request] |}
  ∧ posts (effects (final (submit isEmail None n values st)))
    = (posts (effects st) ++ [request])%list.
Proof.
  intros H request. split.
  - by rewrite handleSubmit_valid.
  - by rewrite submit_valid_posts.
Qed.

Lemma submit_without_session_witness :
  passes_schema Email.matches acme = true
  ∧ posts (effects (final (submit Email.matches None Failed acme initial)))
    = [ {| url := "/api/v1/organizations";
           body := {| data := acme; user_id := None; description := "n/a" |};
           Authorization := "Bearer undefined" |} ].
Proof.
  assert (passes_schema Email.matches acme = true) as H by reflexivity.
  split; [exact H|].
  exact (proj2 (submit_without_session Email.matches Failed acme initial H)).
Defined.

(** * Further properties of the page *)

(** ** The whole of the handler's second half *)

Lemma toasts_log (e : Effect) (st : State) :
  toasts (effects (log e st))
  = (toasts (effects st) ++ match e with Notify t => [t] | _ => [] end)%list.
Proof.
  unfold toasts. cbn [effects log]. rewrite omap_app. by destruct e.
Qed.

Lemma pushes_log (e : Effect) (st : State) :
  pushes (effects (log e st))
  = (pushes (effects st) ++ match e with Push p => [p] | _ => [] end)%list.
Proof.
  unfold pushes. cbn [effects log]. rewrite omap_app. by destruct e.
Qed.

(** Every way the promise can settle, and what the handler then does. *)
Lemma onSubmit_response_run (p : Settled) (st : State) :
  onSubmit_response p st
  = match p with
    | Fulfilled _ =>
        Normal tt (set_isLoading false
                     (log (Push "/dashboard") (log (Notify created) st)))
    | Rejected (AxiosError (Some r)) =>
        match response_data r with
        | data_null => Throw TypeError st
        | data_value ev msg =>
            if bool_decide (status r = 422) then
              match ev with
              | errors_falsy => Normal tt (set_isLoading false (set_errors ∅ st))
              | errors_array l =>
                  Normal tt (set_isLoading false (set_errors (written ∅ l) st))
              | errors_other => Throw TypeError (set_errors ∅ st)
              end
            else Normal tt (set_isLoading false (log (Notify (failed msg)) st))
        end
    | Rejected _ => Normal tt (set_isLoading false (log (Notify unexpected) st))
    end.
Proof.
  destruct p as [r|[[[s [|ev msg]]|]| |]]; try reflexivity.
  - apply onSubmit_response_null.
  - cbn [response_data status]. case_bool_decide as Hs.
    + subst s. destruct ev; [done| |done]. apply onSubmit_response_422_array.
    + by apply onSubmit_response_other_status.
Qed.

(** The state in which a valid submission awaits its response. *)
Lemma submit_valid_run (isEmail : string → bool) (session : option Session) (n : Network) (values : FormData) (st : State) :
  passes_schema isEmail values = true →
  submit isEmail session n values st
  = onSubmit_response (settle n)
      {| isLoading := true; apiUrl := apiUrl st; errors := ∅;
         effects := effects st
                    ++ [Post {| url := endpoint (apiUrl st);
                                body := payload session values;
                                Authorization := bearer session |}] |}.
Proof. intros H. by rewrite submit_valid. Qed.

Lemma submit_invalid_run (isEmail : string → bool) (session : option Session) (n : Network) (values : FormData) (st : State) :
  passes_schema isEmail values = false →
  submit isEmail session n values st
  = Normal tt (set_errors (zodResolver isEmail values) st).
Proof. apply handleSubmit_invalid. Qed.

(** ** Navigation *)

(** X1: the page navigates only on success.  Whatever the values and
    whatever happens to the request, a submission adds a navigation to the
    log exactly when the values pass the schema and the server answers with
    a status from 200 to 299, and then it is the one to [/dashboard]. *)
Theorem navigation_only_on_success
  (isEmail : string → bool) (session : option Session)
  (n : Network) (values : FormData) (st : State) :
  pushes (effects (final (submit isEmail session n values st)))
  = (pushes (effects st)
     ++ if passes_schema isEmail values
           && match n with
              | Replied r => bool_decide (200 ≤ status r < 300)%Z
              | Failed => false
              end
        then ["/dashboard"] else [])%list.
Proof.
  destruct (passes_schema isEmail values) eqn:Hvalid; cbn [andb].
  - rewrite submit_valid by done. rewrite onSubmit_response_run.
    destruct n as [[s d]|]; cbn [settle status].
    + unfold validateStatus.
      assert (bool_decide (200 ≤ s < 300)%Z = (200 <=? s)%Z && (s <? 300)%Z) as ->.
      { apply eq_true_iff_eq.
        rewrite bool_decide_eq_true, andb_true_iff, Z.leb_le, Z.ltb_lt. done. }
      destruct ((200 <=? s)%Z && (s <? 300)%Z).
      * cbn [final effects set_isLoading]. rewrite !pushes_log.
        by rewrite !app_nil_r.
      * destruct d as [|ev msg]; cbn [response_data status].
        { cbn [final]. rewrite pushes_log. by rewrite !app_nil_r. }
        case_bool_decide; [destruct ev|];
          cbn [final effects set_isLoading set_errors];
          rewrite ?pushes_log; by rewrite !app_nil_r.
    + cbn [final effects set_isLoading]. rewrite !pushes_log.
      by rewrite !app_nil_r.
  - rewrite submit_invalid_run by done. by rewrite app_nil_r.
Qed.

(** ** Notifications *)

(** The notifications of a valid submission, by what happens to the request. *)
Lemma submit_valid_toasts (isEmail : string → bool) (session : option Session) (n : Network) (values : FormData) (st : State) :
  passes_schema isEmail values = true →
  toasts (effects (final (submit isEmail session n values st)))
  = (toasts (effects st)
     ++ match settle n with
        | Fulfilled _ => [created]
        | Rejected (AxiosError (Some r)) =>
            match response_data r with
            | data_null => []
            | data_value _ msg =>
                if bool_decide (status r = 422) then [] else [failed msg]
            end
        | Rejected _ => [unexpected]
        end)%list.
Proof.
  intros H. rewrite submit_valid by done. rewrite onSubmit_response_run.
  destruct (settle n) as [r|[[[s [|ev msg]]|]| |]];
    cbn [response_data status final effects set_isLoading set_errors];
    rewrite ?toasts_log, ?app_nil_r; try done.
  case_bool_decide; [destruct ev|];
    cbn [final effects set_isLoading set_errors];
    rewrite ?toasts_log, ?app_nil_r; done.
Qed.

(** X2: a submission shows at most one notification, and none at all when
    the values fail the schema or when the server answers 422.  The
    notifications already in the log stay as they are. *)
Theorem at_most_one_notification
  (isEmail : string → bool) (session : option Session)
  (n : Network) (values : FormData) (st : State) :
  ∃ shown : list Toast,
    toasts (effects (final (submit isEmail session n values st)))
    = (toasts (effects st) ++ shown)%list
    ∧ (length shown ≤ 1)%nat
    ∧ (passes_schema isEmail values = false → shown = [])
    ∧ (∀ d, n = Replied {| status := 422; response_data := d |} → shown = []).
Proof.
  destruct (passes_schema isEmail values) eqn:Hvalid.
  - eexists. split; [by apply submit_valid_toasts|].
    split; [|split; [done|]].
    + destruct (settle n) as [r|[[[s [|ev msg]]|]| |]];
        cbn [response_data status length]; try lia.
      case_bool_decide; cbn [length]; lia.
    + intros d ->. by destruct d.
  - exists []. rewrite submit_invalid_run by done. rewrite app_nil_r.
    split; [done|]. split; [cbn; lia|done].
Qed.

(** ** Field errors *)

(** X3: only a 422 touches the form's errors.  However else the promise
    settles (fulfilled, rejected with another status and any body, [null]
    included, rejected without a response), the error object after the
    handler's second half is the one before it. *)
Theorem only_422_touches_field_errors (p : Settled) (st : State) :
  (∀ r, p = Rejected (AxiosError (Some r)) → status r ≠ 422) →
  errors (final (onSubmit_response p st)) = errors st.
Proof.
  intros Hp. rewrite onSubmit_response_run.
  destruct p as [r|[[[s [|ev msg]]|]| |]]; try done.
  cbn [response_data status].
  rewrite bool_decide_eq_false_2; [done|]. exact (Hp _ eq_refl).
Qed.

Lemma only_422_touches_field_errors_witness :
  errors (final (onSubmit_response
    (settle (Replied {| status := 500; response_data := data_null |}))
    (set_errors {[ "email" := manual email_taken ]} in_flight)))
  = {[ "email" := manual email_taken ]}.
Proof.
  refine (eq_trans
    (only_422_touches_field_errors
       (settle (Replied {| status := 500; response_data := data_null |}))
       (set_errors {[ "email" := manual email_taken ]} in_flight) _)
    eq_refl).
  intros r [= <-]. done.
Defined.

(** ** Abrupt ends *)

(** X4: which answers leave the button disabled.  For a valid submission:
    an error status with the body [null], and status 422 with an [errors]
    that is truthy but not an array, make the handler end with a
    [TypeError]; the log then holds the request and nothing after it, and
    the button is left disabled, showing "Processing...".  A success, a
    failure without a response, another error status with a body that is
    not [null], and status 422 with no [errors] or with a list of pairs
    whose fields are plain keys, make the handler return, and the button is
    then enabled and shows "Create Account". *)
Theorem answers_that_leave_the_button_disabled
  (isEmail : string → bool) (session : option Session)
  (values : FormData) (st : State) :
  passes_schema isEmail values = true →
  let run n := submit isEmail session n values st in
  let stuck :=
    {| isLoading := true; apiUrl := apiUrl st; errors := ∅;
       effects := effects st
                  ++ [Post {| url := apiUrl st +:+ "/api/v1/organizations";
                              body := payload session values;
                              Authorization := bearer session |}] |} in
  let settled n :=
    returns (run n) = true ∧ isDisabled (final (run n)) = false
    ∧ label (final (run n)) = "Create Account" in
  (∀ s, ¬ (200 ≤ s < 300)%Z →
     run (Replied {| status := s; response_data := data_null |})
     = Throw TypeError stuck)
  ∧ (∀ msg,
       run (Replied {| status := 422; response_data := data_value errors_other msg |})
       = Throw TypeError stuck)
  ∧ isDisabled stuck = true ∧ label stuck = "Processing..."
  ∧ (∀ s d, (200 ≤ s < 300)%Z →
       settled (Replied {| status := s; response_data := d |}))
  ∧ settled Failed
  ∧ (∀ s ev msg, s ≠ 422 →
       settled (Replied {| status := s; response_data := data_value ev msg |}))
  ∧ (∀ msg,
       settled (Replied {| status := 422;
                           response_data := data_value errors_falsy msg |}))
  ∧ (∀ l msg, Forall (λ e, plain_key (field e) = true) l →
       settled (Replied {| status := 422;
                           response_data := data_value (errors_array l) msg |})).
Proof.
  intros Hvalid run stuck settled.
  assert (∀ n, run n = onSubmit_response (settle n) stuck) as Hrun.
  { intros n. unfold run. by rewrite submit_valid_run. }
  assert (∀ s d, (200 ≤ s < 300)%Z →
            settle (Replied {| status := s; response_data := d |})
            = Fulfilled {| status := s; response_data := d |}) as Hok.
  { intros s d [??]. cbn [settle status]. unfold validateStatus.
    by rewrite (proj2 (Z.leb_le _ _)), (proj2 (Z.ltb_lt _ _)). }
  assert (∀ s d, ¬ (200 ≤ s < 300)%Z →
            settle (Replied {| status := s; response_data := d |})
            = Rejected (AxiosError (Some {| status := s; response_data := d |})))
    as Hno.
  { intros s d Hs. cbn [settle status]. unfold validateStatus.
    destruct ((200 <=? s)%Z && (s <? 300)%Z) eqn:E; [|done].
    apply andb_true_iff in E as [?%Z.leb_le ?%Z.ltb_lt]. lia. }
  unfold settled. split; [|split; [|split; [|split; [|split; [|split; [|split; [|split]]]]]]].
  - intros s Hs. by rewrite Hrun, Hno, onSubmit_response_null.
  - intros msg. by rewrite Hrun, Hno, onSubmit_response_422_other by lia.
  - done.
  - done.
  - intros s d Hs. by rewrite Hrun, Hok, onSubmit_response_fulfilled.
  - by rewrite Hrun.
  - intros s ev msg Hs. rewrite Hrun.
    destruct (decide (200 ≤ s < 300)%Z) as [Hin|Hout].
    + by rewrite Hok, onSubmit_response_fulfilled.
    + by rewrite Hno, onSubmit_response_other_status.
  - intros msg. by rewrite Hrun, Hno, onSubmit_response_422_falsy by lia.
  - intros l msg _. by rewrite Hrun, Hno, onSubmit_response_422_array by lia.
Qed.

Lemma answers_that_leave_the_button_disabled_witness :
  passes_schema Email.matches acme = true
  ∧ isDisabled (final (submit Email.matches (Some alice)
                         (Replied {| status := 500; response_data := data_null |})
                         acme initial))
    = true.
Proof.
  assert (passes_schema Email.matches acme = true) as H by reflexivity.
  split; [exact H|].
  refine (eq_trans (f_equal (λ c, isDisabled (final c))
    (proj1 (answers_that_leave_the_button_disabled Email.matches (Some alice)
              acme initial H) 500%Z _)) eq_refl).
  lia.
Defined.

(** ** Requests *)

Lemma onSubmit_response_apiUrl (p : Settled) (st : State) :
  apiUrl (final (onSubmit_response p st)) = apiUrl st.
Proof.
  rewrite onSubmit_response_run.
  destruct p as [r|[[[s [|ev msg]]|]| |]]; try done.
  cbn [response_data status]. case_bool_decide; [by destruct ev|done].
Qed.

Lemma submit_apiUrl (isEmail : string → bool) (session : option Session) (n : Network) (values : FormData) (st : State) :
  apiUrl (final (submit isEmail session n values st)) = apiUrl st.
Proof.
  destruct (passes_schema isEmail values) eqn:Hvalid.
  - rewrite submit_valid by done. by rewrite onSubmit_response_apiUrl.
  - by rewrite submit_invalid_run.
Qed.

(** X5: a submission sends one request when the values pass the schema and
    none when they do not, whatever the network does and however the handler
    ends; and it never changes the base URL. *)
Theorem one_request_per_valid_submission
  (isEmail : string → bool) (session : option Session)
  (n : Network) (values : FormData) (st : State) :
  length (posts (effects (final (submit isEmail session n values st))))
  = (length (posts (effects st))
     + if passes_schema isEmail values then 1 else 0)%nat
  ∧ apiUrl (final (submit isEmail session n values st)) = apiUrl st.
Proof.
  split; [|apply submit_apiUrl].
  destruct (passes_schema isEmail values) eqn:Hvalid.
  - rewrite submit_valid_posts by done. by rewrite length_app.
  - rewrite submit_invalid_run by done. cbn [final effects set_errors]. lia.
Qed.

(** X6: the handler keeps no memory of what it has sent.  Submitting the
    same valid values a second time, whatever became of the first request,
    sends the same request again: the log then holds it twice. *)
Theorem resubmission_sends_again
  (isEmail : string → bool) (session : option Session)
  (n1 n2 : Network) (values : FormData) (st : State) :
  passes_schema isEmail values = true →
  let request :=
    {| url := apiUrl st +:+ "/api/v1/organizations";
       body := payload session values; Authorization := bearer session |} in
  posts (effects (final
    (submit isEmail session n2 values
       (final (submit isEmail session n1 values st)))))
  = (posts (effects st) ++ [request; request])%list.
Proof.
  intros H request.
  rewrite !submit_valid_posts by done. rewrite submit_apiUrl.
  by rewrite <- app_assoc.
Qed.

Lemma resubmission_sends_again_witness :
  passes_schema Email.matches acme = true
  ∧ length (posts (effects (final
      (submit Email.matches (Some alice) Failed acme
         (final (submit Email.matches (Some alice) Failed acme initial))))))
    = 2%nat.
Proof.
  assert (passes_schema Email.matches acme = true) as H by reflexivity.
  split; [exact H|].
  exact (f_equal length
    (resubmission_sends_again Email.matches (Some alice) Failed Failed acme initial H)).
Defined.

(** X7: the base URL the resolver yields on mount is the one requests go
    to.  After [fetchApiUrl] has resolved to [u], a valid submission posts
    to [u] followed by [/api/v1/organizations] and nothing was notified;
    after it has failed, one "Error" notification was shown, the base URL is
    what it was, and the submission still goes out. *)
Theorem fetched_base_url_is_used
  (isEmail : string → bool) (session : option Session)
  (n : Network) (values : FormData) (u : string) (st : State) :
  passes_schema isEmail values = true →
  (url <$> posts (effects (final
     (submit isEmail session n values (final (fetchApiUrl (Some u) st))))))
  = ((url <$> posts (effects st)) ++ [u +:+ "/api/v1/organizations"])%list
  ∧ toasts (effects (final (fetchApiUrl (Some u) st))) = toasts (effects st)
  ∧ (url <$> posts (effects (final
       (submit isEmail session n values (final (fetchApiUrl None st))))))
    = ((url <$> posts (effects st)) ++ [apiUrl st +:+ "/api/v1/organizations"])%list
  ∧ toasts (effects (final (fetchApiUrl None st)))
    = (toasts (effects st)
       ++ [ {| title := "Error"; toast_description := "Failed to fetch API URL";
               variant := Some "destructive" |} ])%list.
Proof.
  intros H. rewrite !submit_valid_posts by done. rewrite !fmap_app.
  split; [done|]. split; [done|]. split.
  - cbn [fetchApiUrl final]. unfold toast, modify. cbn [final].
    by rewrite posts_log, app_nil_r.
  - cbn [fetchApiUrl final]. unfold toast, modify. cbn [final].
    by rewrite toasts_log.
Qed.

Lemma fetched_base_url_is_used_witness :
  passes_schema Email.matches acme = true
  ∧ (url <$> posts (effects (final
       (submit Email.matches (Some alice) Failed acme
          (final (fetchApiUrl (Some "https://api.example.com") initial))))))
    = ["https://api.example.com/api/v1/organizations"].
Proof.
  assert (passes_schema Email.matches acme = true) as H by reflexivity.
  split; [exact H|].
  exact (proj1 (fetched_base_url_is_used Email.matches (Some alice) Failed acme
                  "https://api.example.com" initial H)).
Defined.

(** ** The schema and the resolver *)

(** X8: when the name has two characters or more, the e-mail passes the
    e-mail test and the other five fields are not empty, [handleSubmit]
    empties the error object, whatever it held, and runs the handler it was
    given on exactly these values. *)
Theorem valid_input_reaches_handler
  (isEmail : string → bool) (onValid : FormData → M unit)
  (values : FormData) (st : State) :
  (2 ≤ String.length (name values))%nat → isEmail (email values) = true →
  industry values ≠ "" → type values ≠ "" → country values ≠ "" →
  state values ≠ "" → address values ≠ "" →
  handleSubmit isEmail onValid values st
  = onValid values {| isLoading := isLoading st; apiUrl := apiUrl st;
                      errors := ∅; effects := effects st |}.
Proof.
  intros. apply handleSubmit_valid. by apply passes_schema_spec.
Qed.

Lemma valid_input_reaches_handler_witness :
  handleSubmit Email.matches (λ d, router_push (name d)) acme in_flight
  = Normal tt {| isLoading := true; apiUrl := "https://api.example.com";
                 errors := ∅;
                 effects := effects in_flight ++ [Push "Acme Inc"] |}.
Proof.
  refine (eq_trans
    (valid_input_reaches_handler Email.matches (λ d, router_push (name d))
       acme in_flight _ _ _ _ _ _ _) eq_refl);
    first [ by vm_compute | cbn; lia ].
Defined.

(** X9: the resolver's error object has one entry for each field that fails
    its check and no other: under the name of a failing field stands the
    issue code and the message of its check, a passing field and any name
    that is not a field have no entry, the number of entries is the number
    of failing fields, and no entry has the type "manual" that marks an
    error sent by the server. *)
Theorem resolver_errors_are_the_failing_fields
  (isEmail : string → bool) (d : FormData) :
  (∀ k, zodResolver isEmail d !! key_name k
        = if passes (formSchema isEmail k) (get d k) then None
          else Some {| error_type := code (formSchema isEmail k);
                       error_message := message (formSchema isEmail k) |})
  ∧ (∀ name, name ∉ key_name <$> keys → zodResolver isEmail d !! name = None)
  ∧ size (zodResolver isEmail d)
    = length (filter (λ k, valid_at isEmail d k = false) keys)
  ∧ (∀ name e, zodResolver isEmail d !! name = Some e → error_type e ≠ "manual").
Proof.
  assert (∀ l name, name ∉ key_name <$> l → issues isEmail d l !! name = None)
    as Hother.
  { induction l as [|k l IH]; intros name Hname; [done|].
    cbn [issues foldr]. rewrite fmap_cons, not_elem_of_cons in Hname.
    destruct Hname as [Hk Hl]. destruct (valid_at isEmail d k).
    - by apply IH.
    - rewrite lookup_insert_ne by done. by apply IH. }
  assert (∀ l, NoDup l →
            size (issues isEmail d l)
            = length (filter (λ k, valid_at isEmail d k = false) l)) as Hsize.
  { induction l as [|k l IH]; intros Hnd; [done|].
    apply NoDup_cons in Hnd as [Hk Hl]. cbn [issues foldr].
    destruct (valid_at isEmail d k) eqn:Hv.
    - rewrite filter_cons_False by congruence. by apply IH.
    - rewrite filter_cons_True by done. cbn [length]. rewrite <- IH by done.
      apply map_size_insert_None, Hother.
      intros (k' & Heq & Hin)%list_elem_of_fmap.
      by apply (inj key_name) in Heq as <-. }
  split; [apply zodResolver_lookup|]. split; [apply Hother|].
  split.
  - apply Hsize. by apply (bool_decide_unpack (NoDup keys)).
  - intros name e He.
    destruct (decide (name ∈ key_name <$> keys)) as [Hin|Hout].
    + apply list_elem_of_fmap in Hin as (k & -> & _).
      rewrite zodResolver_lookup in He.
      destruct (valid_at isEmail d k); [done|].
      injection He as <-. by destruct k.
    + unfold zodResolver in He. by rewrite Hother in He.
Qed.

(** X10: validation is local to a field.  Whether a field has an error, and
    which, depends on the value of that field alone: two forms that agree on
    a field get the same entry under its name, so an edit of one field
    leaves the errors of the others as they would be. *)
Theorem validation_is_field_local
  (isEmail : string → bool) (d d' : FormData) (k : Key) :
  get d k = get d' k →
  zodResolver isEmail d !! key_name k = zodResolver isEmail d' !! key_name k.
Proof.
  intros H. rewrite !zodResolver_lookup. unfold valid_at. by rewrite H.
Qed.

Lemma validation_is_field_local_witness :
  zodResolver Email.matches acme !! "email"
  = zodResolver Email.matches agriculture !! "email".
Proof.
  exact (validation_is_field_local Email.matches acme agriculture Kemail eq_refl).
Defined.

(** ** More on validation errors from the server *)

Lemma written_cons (errs : gmap string FieldError) (e : ValidationError) (l : list ValidationError) :
  written errs (e :: l) = written (<[field e := manual e]> errs) l.
Proof. reflexivity. Qed.

Lemma written_dom (errs : gmap string FieldError) (l : list ValidationError) :
  dom (written errs l) = dom errs ∪ list_to_set (field <$> l).
Proof.
  revert errs. induction l as [|e l IH]; intros errs.
  - cbn. by rewrite (right_id_L ∅ (∪)).
  - rewrite written_cons, IH, dom_insert_L, fmap_cons. cbn [list_to_set].
    rewrite (comm_L (∪) {[field e]} (dom errs)). by rewrite (assoc_L (∪)).
Qed.

Lemma written_size (errs : gmap string FieldError) (l : list ValidationError) :
  (size (written errs l) ≤ size errs + length l)%nat.
Proof.
  revert errs. induction l as [|e l IH]; intros errs; [cbn; lia|].
  rewrite written_cons. etrans; [apply IH|]. rewrite map_size_insert.
  destruct (errs !! field e); cbn; lia.
Qed.

Lemma written_permutation (errs : gmap string FieldError) (l l' : list ValidationError) :
  NoDup (field <$> l) → l ≡ₚ l' → written errs l = written errs l'.
Proof.
  intros Hnd Hperm. revert errs Hnd.
  induction Hperm as [|x l l' Hperm IH|x y l|l l' l'' H1 IH1 H2 IH2];
    intros errs Hnd.
  - done.
  - rewrite !written_cons. apply IH.
    rewrite fmap_cons in Hnd. by apply NoDup_cons in Hnd as [_ ?].
  - rewrite !written_cons. f_equal. apply insert_insert_ne.
    rewrite !fmap_cons in Hnd. apply NoDup_cons in Hnd as [Hy _].
    rewrite not_elem_of_cons in Hy. by destruct Hy.
  - rewrite IH1 by done. apply IH2. by rewrite <- H1.
Qed.

(** X11: after a 422 the fields in error are exactly the fields the
    response names.  When the pairs have plain keys as fields, the names
    under which the error object holds an entry are the names of the pairs,
    so there are never more errors than pairs, and a form field shows a
    message exactly when some pair carries its name. *)
Theorem errors_after_422_are_the_named_fields
  (l : list ValidationError) (msg : option string) (st : State) :
  Forall (λ e, plain_key (field e) = true) l →
  let after :=
    final (onSubmit_response
      (settle (Replied {| status := 422;
                          response_data := data_value (errors_array l) msg |})) st) in
  dom (errors after) = list_to_set (field <$> l)
  ∧ (size (errors after) ≤ length l)%nat
  ∧ ∀ k, is_Some (FormMessage after k) ↔ key_name k ∈ field <$> l.
Proof.
  intros _ after.
  assert (errors after = written ∅ l) as Herrs.
  { unfold after. change (settle _) with (Rejected (AxiosError (Some
      {| status := 422; response_data := data_value (errors_array l) msg |}))).
    by rewrite onSubmit_response_422_array. }
  assert (dom (errors after) = list_to_set (field <$> l)) as Hdom.
  { rewrite Herrs, written_dom, dom_empty_L. by rewrite (left_id_L ∅ (∪)). }
  split; [done|]. split.
  - rewrite Herrs. etrans; [apply written_size|]. by rewrite map_size_empty.
  - intros k. unfold FormMessage. rewrite fmap_is_Some, <- elem_of_dom, Hdom.
    apply elem_of_list_to_set.
Qed.

Lemma errors_after_422_are_the_named_fields_witness :
  Forall (λ e, plain_key (field e) = true) [email_taken; phone_error]
  ∧ dom (errors (final (onSubmit_response
      (settle (Replied {| status := 422;
         response_data := data_value (errors_array [email_taken; phone_error]) None |}))
      in_flight)))
    = list_to_set (field <$> [email_taken; phone_error]).
Proof.
  assert (Forall (λ e, plain_key (field e) = true) [email_taken; phone_error])
    as Hplain by (repeat constructor).
  split; [exact Hplain|].
  exact (proj1 (errors_after_422_are_the_named_fields
                  [email_taken; phone_error] None in_flight Hplain)).
Defined.

(** X12: when the pairs of a 422 response have plain keys as fields and
    name pairwise different fields, their order does not matter: the same
    pairs in any other order leave the same state behind. *)
Theorem order_of_pairs_is_immaterial
  (l l' : list ValidationError) (msg : option string) (st : State) :
  Forall (λ e, plain_key (field e) = true) l →
  NoDup (field <$> l) → l ≡ₚ l' →
  onSubmit_response
    (settle (Replied {| status := 422;
                        response_data := data_value (errors_array l) msg |})) st
  = onSubmit_response
      (settle (Replied {| status := 422;
                          response_data := data_value (errors_array l') msg |})) st.
Proof.
  intros _ Hnd Hperm.
  change (settle (Replied {| status := 422;
                             response_data := data_value (errors_array l) msg |}))
    with (Rejected (AxiosError (Some
            {| status := 422; response_data := data_value (errors_array l) msg |}))).
  change (settle (Replied {| status := 422;
                             response_data := data_value (errors_array l') msg |}))
    with (Rejected (AxiosError (Some
            {| status := 422; response_data := data_value (errors_array l') msg |}))).
  rewrite !onSubmit_response_422_array.
  by rewrite (written_permutation ∅ l l').
Qed.

Lemma order_of_pairs_is_immaterial_witness :
  Forall (λ e, plain_key (field e) = true) [email_taken; phone_error]
  ∧ onSubmit_response
      (settle (Replied {| status := 422;
         response_data := data_value (errors_array [email_taken; phone_error]) None |}))
      in_flight
    = onSubmit_response
        (settle (Replied {| status := 422;
           response_data := data_value (errors_array [phone_error; email_taken]) None |}))
        in_flight.
Proof.
  assert (Forall (λ e, plain_key (field e) = true) [email_taken; phone_error])
    as Hplain by (repeat constructor).
  split; [exact Hplain|].
  apply (order_of_pairs_is_immaterial [email_taken; phone_error]
           [phone_error; email_taken] None in_flight Hplain).
  - apply (bool_decide_unpack _). by vm_compute.
  - apply perm_swap.
Defined.

(** X13: handling a 422 with a list of pairs is idempotent and independent
    of the errors shown before: the same response handled again, or handled
    from a state that differs only in its error object, leaves one and the
    same state behind. *)
Theorem handling_422_is_idempotent
  (l : list ValidationError) (msg : option string)
  (errs : gmap string FieldError) (st : State) :
  let handle :=
    onSubmit_response
      (settle (Replied {| status := 422;
                          response_data := data_value (errors_array l) msg |})) in
  handle (final (handle st)) = handle st
  ∧ handle (set_errors errs st) = handle st.
Proof.
  intros handle. unfold handle.
  change (settle _) with (Rejected (AxiosError (Some
    {| status := 422; response_data := data_value (errors_array l) msg |}))).
  by rewrite !onSubmit_response_422_array.
Qed.

(** ** Forms filled in through the controls *)

(** An edit changes the edited field to the value entered and no other. *)
Lemma get_onChange (k k' : Key) (v : string) (d : FormData) :
  get (onChange k v d) k' = if decide (k = k') then v else get d k'.
Proof. by destruct k, k'. Qed.

Lemma fill_snoc (es : list (Key * string)) (k : Key) (v : string) :
  fill (es ++ [(k, v)]) = onChange k v (fill es).
Proof. unfold fill. by rewrite foldl_app. Qed.

(** Whatever has been entered, a select holds nothing or one of its items. *)
Lemma fill_select (es : list (Key * string)) (k : Key) :
  Forall (λ e, offers e.1 e.2) es →
  is_select k = true →
  get (fill es) k = "" ∨ get (fill es) k ∈ options k.
Proof.
  intros Hes Hk. induction es as [|[k' v] es IH] using rev_ind.
  - left. by destruct k.
  - apply Forall_app in Hes as [Hes Hlast]. rewrite Forall_singleton in Hlast.
    rewrite fill_snoc, get_onChange. destruct (decide (k' = k)) as [->|_].
    + right. cbv beta in Hlast. cbn [fst snd] in Hlast. unfold offers in Hlast.
      by rewrite Hk in Hlast.
    + by apply IH.
Qed.

(** X14: through its controls the form can only send the options its
    selects offer.  Starting from the default values, after any sequence of
    edits in which the inputs take any string and each select one of its
    items, every select holds the empty string or one of its items; so when
    such a form passes the schema, its industry is "Technology", its type
    "Entertainment", its country "Nigeria" and its state "Lagos", and these
    are the values the request of its submission carries. *)
Theorem filled_form_sends_offered_options
  (isEmail : string → bool) (session : option Session) (n : Network)
  (es : list (Key * string)) (st : State) :
  Forall (λ e, offers e.1 e.2) es →
  passes_schema isEmail (fill es) = true →
  industry (fill es) = "Technology" ∧ type (fill es) = "Entertainment"
  ∧ country (fill es) = "Nigeria" ∧ state (fill es) = "Lagos"
  ∧ ((λ r, let d := data (body r) in (industry d, type d, country d, state d))
       <$> posts (effects (final (submit isEmail session n (fill es) st))))
    = (((λ r, let d := data (body r) in (industry d, type d, country d, state d))
          <$> posts (effects st))
       ++ [("Technology", "Entertainment", "Nigeria", "Lagos")])%list.
Proof.
  intros Hes Hvalid.
  assert (∀ k, is_select k = true → get (fill es) k ∈ options k) as Hsel.
  { intros k Hk. destruct (fill_select es k Hes Hk) as [Hempty|?]; [|done].
    apply passes_schema_spec in Hvalid as (_ & _ & ? & ? & ? & ? & _).
    destruct k; done. }
  assert (industry (fill es) = "Technology") as Hi.
  { specialize (Hsel Kindustry eq_refl). cbn in Hsel.
    by apply list_elem_of_singleton in Hsel. }
  assert (type (fill es) = "Entertainment") as Ht.
  { specialize (Hsel Ktype eq_refl). cbn in Hsel.
    by apply list_elem_of_singleton in Hsel. }
  assert (country (fill es) = "Nigeria") as Hc.
  { specialize (Hsel Kcountry eq_refl). cbn in Hsel.
    by apply list_elem_of_singleton in Hsel. }
  assert (state (fill es) = "Lagos") as Hs.
  { specialize (Hsel Kstate eq_refl). cbn in Hsel.
    by apply list_elem_of_singleton in Hsel. }
  do 4 (split; [done|]).
  rewrite submit_valid_posts by done. rewrite fmap_app. cbn.
  by rewrite Hi, Ht, Hc, Hs.
Qed.

Lemma filled_form_sends_offered_options_witness :
  Forall (λ e, offers e.1 e.2)
    [(Kname, "Acme Inc"); (Kemail, "a@acme.com"); (Kindustry, "Technology");
     (Ktype, "Entertainment"); (Kcountry, "Nigeria"); (Kstate, "Lagos");
     (Kaddress, "1 Main St")]
  ∧ industry acme = "Technology".
Proof.
  assert (Forall (λ e, offers e.1 e.2)
    [(Kname, "Acme Inc"); (Kemail, "a@acme.com"); (Kindustry, "Technology");
     (Ktype, "Entertainment"); (Kcountry, "Nigeria"); (Kstate, "Lagos");
     (Kaddress, "1 Main St")]) as Hes.
  { repeat (apply Forall_cons; split); try apply Forall_nil; unfold offers; cbn;
      first [ exact I | apply list_elem_of_singleton; reflexivity ]. }
  split; [exact Hes|].
  exact (proj1 (filled_form_sends_offered_options Email.matches (Some alice) Failed
    [(Kname, "Acme Inc"); (Kemail, "a@acme.com"); (Kindustry, "Technology");
     (Ktype, "Entertainment"); (Kcountry, "Nigeria"); (Kstate, "Lagos");
     (Kaddress, "1 Main St")] initial Hes eq_refl)).
Defined.

(** ** The description of a failure *)

(** X15: the notification of a failed request never has an empty
    description.  For an error status other than 422 and a body that is not
    [null], the handler returns having shown one notification titled
    "Error occurred"; its description is the server's message when that is a
    non-empty string, and the fixed fallback both when there is no message
    and when the message is the empty string. *)
Theorem failure_description_is_never_empty
  (s : Z) (ev : ErrorsValue) (msg : option string) (st : State) :
  ¬ (200 ≤ s < 300)%Z → s ≠ 422 →
  ∃ shown : string,
    onSubmit_response
      (settle (Replied {| status := s; response_data := data_value ev msg |})) st
    = Normal tt
        {| isLoading := false; apiUrl := apiUrl st; errors := errors st;
           effects := effects st
                      ++ [Notify {| title := "Error occurred";
                                    toast_description := shown;
                                    variant := None |}] |}
    ∧ shown ≠ ""
    ∧ (∀ m, msg = Some m → m ≠ "" → shown = m)
    ∧ (msg = None ∨ msg = Some "" →
         shown = "Failed to submit the form. Please try again.").
Proof.
  intros Hs H422.
  exists (or_else msg "Failed to submit the form. Please try again.").
  split; [by apply other_failure_notifies|].
  split; [by destruct msg as [[|]|]|].
  split.
  - intros m -> Hm. by destruct m.
  - by intros [-> | ->].
Qed.

Lemma failure_description_is_never_empty_witness :
  ∃ shown : string,
    toasts (effects (final (onSubmit_response
      (settle (Replied {| status := 500;
                          response_data := data_value errors_falsy (Some "") |}))
      in_flight)))
    = [ {| title := "Error occurred"; toast_description := shown;
           variant := None |} ]
    ∧ shown ≠ "".
Proof.
  destruct (failure_description_is_never_empty 500 errors_falsy (Some "") in_flight)
    as (shown & Hrun & Hne & _); [lia | lia |].
  exists shown. split; [|exact Hne]. by rewrite Hrun.
Defined.
